(** * A shallow embedding of the GameClient of src/game.js

    The browser client keeps a local mirror of the game world (the [players]
    and [avatars] maps), follows its own player with a clamped viewport, turns
    held arrow keys into [move]/[stop] messages, and redraws the canvas from a
    [requestAnimationFrame] loop guarded by the [needsRedraw] flag.

    Modelling choices.
    - JS numbers are modelled as exact rationals [Q]; the coordinates the
      client handles are positions, sizes and their halves.
    - [this] is an explicit state record [client]; every method becomes a
      function [client -> client] (or a pure function of the state).
    - [ws.send] appends the message to [outbox], the sequence of messages
      handed to the socket.
    - [render()] paints the canvas; its only trace in the state is the
      counter [redraws] of completed draws.
    - [this.myPlayer] is the object stored in the [players] map by
      [handleJoinGame]; the two stay one shared object until a later message
      replaces the map entry by a fresh object. [myPlayerAliased] records
      whether the sharing still holds, so that [updatePlayerFacing] changes
      the map entry exactly when the JS mutation would reach it. *)

From Stdlib Require Import QArith Qminmax Lqa.
From stdpp Require Import base gmap list strings pretty.

Open Scope Q_scope.

(** ** Data model *)

(** A player object as received from the server. *)
Record player := mkPlayer {
  p_id : string;
  username : string;
  p_x : Q;
  p_y : Q;
  facing : string;
  avatar : string;
  animationFrame : option N
}.

(** An avatar descriptor: its name and, per direction, the frame URLs. *)
Record avatar_data := mkAvatar {
  a_name : string;
  frames : list (string * list string)
}.

(** A loaded [Image]: its source and natural size. *)
Record image := mkImage {
  img_src : string;
  img_width : Q;
  img_height : Q
}.

(** The outbound messages (the [action] of the JSON sent). *)
Inductive outmsg :=
  | OJoin (name : string)
  | OMove (direction : string)
  | OStop.

(** The inbound messages dispatched by [handleMessage]. The JSON objects
    [data.players] and [data.avatars] are maps from their keys. *)
Inductive inmsg :=
  | JoinGame (success : bool) (playerId : string)
      (players : gmap string player) (avatars : gmap string avatar_data)
  | PlayersMoved (players : gmap string player)
  | PlayerJoined (p : player) (a : avatar_data)
  | PlayerLeft (playerId : string)
  | Unknown (action : string).

(** The canvas and world dimensions and the base avatar size. *)
Record config := mkConfig {
  canvas_width : Q;
  canvas_height : Q;
  worldWidth : Q;
  worldHeight : Q;
  avatarSize : Q
}.

(** The fields of [this] the claims depend on. *)
Record client := mkClient {
  cfg : config;
  connected : bool;
  outbox : list outmsg;
  myPlayerId : option string;
  myPlayer : option player;
  myPlayerAliased : bool;
  players : gmap string player;
  avatars : gmap string avatar_data;
  avatarImages : gmap string image;
  viewportX : Q;
  viewportY : Q;
  needsRedraw : bool;
  redraws : nat;
  pressedKeys : list string;
  isMoving : bool
}.

(** Field updates. *)
Definition set_outbox (o : list outmsg) (s : client) : client :=
  mkClient (cfg s) (connected s) o (myPlayerId s) (myPlayer s) (myPlayerAliased s)
    (players s) (avatars s) (avatarImages s) (viewportX s) (viewportY s)
    (needsRedraw s) (redraws s) (pressedKeys s) (isMoving s).

Definition set_players (m : gmap string player) (aliased : bool) (s : client) : client :=
  mkClient (cfg s) (connected s) (outbox s) (myPlayerId s) (myPlayer s) aliased
    m (avatars s) (avatarImages s) (viewportX s) (viewportY s)
    (needsRedraw s) (redraws s) (pressedKeys s) (isMoving s).

Definition set_avatars (m : gmap string avatar_data) (s : client) : client :=
  mkClient (cfg s) (connected s) (outbox s) (myPlayerId s) (myPlayer s) (myPlayerAliased s)
    (players s) m (avatarImages s) (viewportX s) (viewportY s)
    (needsRedraw s) (redraws s) (pressedKeys s) (isMoving s).

Definition set_me (id : option string) (me : option player) (s : client) : client :=
  mkClient (cfg s) (connected s) (outbox s) id me (myPlayerAliased s)
    (players s) (avatars s) (avatarImages s) (viewportX s) (viewportY s)
    (needsRedraw s) (redraws s) (pressedKeys s) (isMoving s).

Definition set_viewport (vx vy : Q) (s : client) : client :=
  mkClient (cfg s) (connected s) (outbox s) (myPlayerId s) (myPlayer s) (myPlayerAliased s)
    (players s) (avatars s) (avatarImages s) vx vy
    (needsRedraw s) (redraws s) (pressedKeys s) (isMoving s).

Definition set_needsRedraw (b : bool) (s : client) : client :=
  mkClient (cfg s) (connected s) (outbox s) (myPlayerId s) (myPlayer s) (myPlayerAliased s)
    (players s) (avatars s) (avatarImages s) (viewportX s) (viewportY s)
    b (redraws s) (pressedKeys s) (isMoving s).

Definition set_redraws (n : nat) (s : client) : client :=
  mkClient (cfg s) (connected s) (outbox s) (myPlayerId s) (myPlayer s) (myPlayerAliased s)
    (players s) (avatars s) (avatarImages s) (viewportX s) (viewportY s)
    (needsRedraw s) n (pressedKeys s) (isMoving s).

Definition set_isMoving (b : bool) (s : client) : client :=
  mkClient (cfg s) (connected s) (outbox s) (myPlayerId s) (myPlayer s) (myPlayerAliased s)
    (players s) (avatars s) (avatarImages s) (viewportX s) (viewportY s)
    (needsRedraw s) (redraws s) (pressedKeys s) b.

(** ** Sending: [joinGame], [sendMoveCommand], [sendStopCommand] *)

(** [ws.send(JSON.stringify(message))]. *)
Definition ws_send (m : outmsg) (s : client) : client :=
  set_outbox (outbox s ++ [m]) s.

Definition joinGame (s : client) : client :=
  if negb (connected s) then s else ws_send (OJoin "Tim") s.

Definition sendMoveCommand (direction : string) (s : client) : client :=
  if negb (connected s) then s else ws_send (OMove direction) s.

Definition sendStopCommand (s : client) : client :=
  if negb (connected s) then s else ws_send OStop s.

(** ** Viewport/camera system *)

Definition updateViewport (s : client) : client :=
  match myPlayer s with
  | None => s
  | Some me =>
      let c := cfg s in
      let centerX := canvas_width c / 2 in
      let centerY := canvas_height c / 2 in
      let vx := p_x me - centerX in
      let vy := p_y me - centerY in
      set_viewport
        (Qmax 0 (Qmin vx (worldWidth c - canvas_width c)))
        (Qmax 0 (Qmin vy (worldHeight c - canvas_height c))) s
  end.

(** [worldToScreen] and [screenToWorld] return an object [{x, y}]. *)
Definition worldToScreen (s : client) (worldX worldY : Q) : Q * Q :=
  (worldX - viewportX s, worldY - viewportY s).

Definition screenToWorld (s : client) (screenX screenY : Q) : Q * Q :=
  (screenX + viewportX s, screenY + viewportY s).

(** The spec's camera rule for one axis, written from its words (not from
    the source): center on the position ([topLeft = position - output/2]),
    then clamp to [[0, worldDim - outputDim]], or to 0 when the world is
    smaller than the output. *)
Definition computeViewport_axis_spec (position outputDim worldDim : Q) : Q :=
  let topLeft := position - outputDim / 2 in
  if Qlt_le_dec worldDim outputDim then 0
  else if Qlt_le_dec topLeft 0 then 0
  else if Qlt_le_dec (worldDim - outputDim) topLeft then worldDim - outputDim
  else topLeft.

(** ** Message handling *)

(** [for (const [playerId, player] of Object.entries(obj)) map.set(playerId, player)]. *)
Definition set_all {V} (m : gmap string V) (obj : gmap string V) : gmap string V :=
  fold_left (fun acc '(k, v) => <[k := v]> acc) (map_to_list obj) m.

Definition handleJoinGame (success : bool) (playerId : string)
    (ps : gmap string player) (avs : gmap string avatar_data) (s : client) : client :=
  if success then
    let s1 := set_me (Some playerId) (ps !! playerId) s in
    let s2 := set_players (set_all ∅ ps) (bool_decide (is_Some (ps !! playerId))) s1 in
    let s3 := set_avatars (set_all ∅ avs) s2 in
    (* [loadAvatarImages] only starts asynchronous loads here. *)
    set_needsRedraw true (updateViewport s3)
  else s.

(** A player object of [data.players] is a fresh object: it replaces the map
    entry, and the entry of [myPlayerId] no longer is [this.myPlayer]. *)
Definition handlePlayersMoved (ps : gmap string player) (s : client) : client :=
  let aliased :=
    match myPlayerId s with
    | Some me => myPlayerAliased s && bool_decide (ps !! me = None)
    | None => myPlayerAliased s
    end in
  set_needsRedraw true (set_players (set_all (players s) ps) aliased s).

Definition handlePlayerJoined (p : player) (a : avatar_data) (s : client) : client :=
  let aliased := myPlayerAliased s && bool_decide (myPlayerId s <> Some (p_id p)) in
  let s1 := set_players (<[p_id p := p]> (players s)) aliased s in
  let s2 := set_avatars (<[a_name a := a]> (avatars s1)) s1 in
  set_needsRedraw true s2.

Definition handlePlayerLeft (playerId : string) (s : client) : client :=
  let aliased := myPlayerAliased s && bool_decide (myPlayerId s <> Some playerId) in
  set_needsRedraw true (set_players (delete playerId (players s)) aliased s).

Definition handleMessage (m : inmsg) (s : client) : client :=
  match m with
  | JoinGame ok id ps avs => handleJoinGame ok id ps avs s
  | PlayersMoved ps => handlePlayersMoved ps s
  | PlayerJoined p a => handlePlayerJoined p a s
  | PlayerLeft id => handlePlayerLeft id s
  | Unknown _ => s
  end.

(** ** Keyboard input and movement *)

(** [this.pressedKeys.has(code)]. *)
Definition has (keys : list string) (code : string) : bool :=
  bool_decide (code ∈ keys).

Definition getMovementDirections (keys : list string) : list string :=
  (if has keys "ArrowUp" then ["up"] else []) ++
  (if has keys "ArrowDown" then ["down"] else []) ++
  (if has keys "ArrowLeft" then ["left"] else []) ++
  (if has keys "ArrowRight" then ["right"] else []).

(** [directionMap[direction]]; any other key reads [undefined]. *)
Definition directionMap (direction : string) : option string :=
  if String.eqb direction "up" then Some "north"
  else if String.eqb direction "down" then Some "south"
  else if String.eqb direction "left" then Some "west"
  else if String.eqb direction "right" then Some "east"
  else None.

Definition with_facing (f : string) (p : player) : player :=
  mkPlayer (p_id p) (username p) (p_x p) (p_y p) f (avatar p) (animationFrame p).

(** [this.myPlayer.facing = ...]: the mutation also reaches the map entry
    while it is the same object. *)
Definition updatePlayerFacing (direction : string) (s : client) : client :=
  match myPlayer s with
  | None => s
  | Some me =>
      let me' := with_facing (default "undefined" (directionMap direction)) me in
      let s1 := set_me (myPlayerId s) (Some me') s in
      let s2 :=
        match myPlayerId s with
        | Some id => if myPlayerAliased s
                     then set_players (<[id := me']> (players s1)) true s1
                     else s1
        | None => s1
        end in
      set_needsRedraw true s2
  end.

Definition updateMovement (s : client) : client :=
  match getMovementDirections (pressedKeys s) with
  | d :: _ =>
      let s1 := sendMoveCommand d s in
      let s2 := set_isMoving true s1 in
      let s3 := updatePlayerFacing d s2 in
      updateViewport s3
  | [] =>
      let s1 := sendStopCommand s in
      set_isMoving false s1
  end.

(** ** Render loop *)

(** One [requestAnimationFrame] callback of [startRenderLoop]: [render()]
    runs (and is counted) only when [needsRedraw] is set, and the flag is
    cleared afterwards. *)
Definition renderTick (s : client) : client :=
  if needsRedraw s then set_needsRedraw false (set_redraws (S (redraws s)) s)
  else s.

(** The inbound messages that mutate the store: a successful join, a bulk
    move, a join of one player and a departure. *)
Definition is_store_mutation (m : inmsg) : bool :=
  match m with
  | JoinGame ok _ _ _ => ok
  | PlayersMoved _ | PlayerJoined _ _ | PlayerLeft _ => true
  | Unknown _ => false
  end.

(** A sequence of inbound messages handled between two ticks. *)
Definition handleMessages (ms : list inmsg) (s : client) : client :=
  fold_left (fun acc m => handleMessage m acc) ms s.

(** ** Drawing an avatar *)

(** One [ctx.drawImage(img, dx, dy, w, h)] call, issued while the context's
    horizontal scale is [dc_scale_x] ([ctx.scale(-1, 1)] gives -1). *)
Record drawcall := mkDraw {
  dc_image : image;
  dc_scale_x : Q;
  dc_x : Q;
  dc_y : Q;
  dc_w : Q;
  dc_h : Q
}.

(** Canvas x-coordinate at which the image column at fraction [t] of its
    width (0 = left edge of the source, 1 = right edge) is painted. *)
Definition paint_x (d : drawcall) (t : Q) : Q :=
  dc_scale_x d * (dc_x d + t * dc_w d).

(** The template string [`${avatar}_${direction}_${frameIndex}`]. *)
Definition imageKey (av dir : string) (frameIndex : N) : string :=
  av +:+ "_" +:+ dir +:+ "_" +:+ pretty frameIndex.

Definition drawAvatar (s : client) (pl : player) (x y : Q) : option drawcall :=
  match avatars s !! avatar pl with
  | None => None
  | Some _ =>
      let direction := facing pl in
      let frameIndex := default 0%N (animationFrame pl) in
      match avatarImages s !! imageKey (avatar pl) direction frameIndex with
      | None => None
      | Some avatarImage =>
          let aspectRatio := img_width avatarImage / img_height avatarImage in
          let width := avatarSize (cfg s) in
          let height := avatarSize (cfg s) / aspectRatio in
          let drawX := x - width / 2 in
          let drawY := y - height / 2 in
          if String.eqb direction "west" then
            Some (mkDraw avatarImage (-1) (- drawX - width) drawY width height)
          else
            Some (mkDraw avatarImage 1 drawX drawY width height)
      end
  end.

(** The spec's intent reducer, from its words: the first held direction in
    the order up, down, left, right, or [Stop] when none is held (the arrow
    keys carry the four intents). *)
Definition reduce_spec (keys : list string) : outmsg :=
  if has keys "ArrowUp" then OMove "up"
  else if has keys "ArrowDown" then OMove "down"
  else if has keys "ArrowLeft" then OMove "left"
  else if has keys "ArrowRight" then OMove "right"
  else OStop.

Definition set_pressedKeys (keys : list string) (s : client) : client :=
  mkClient (cfg s) (connected s) (outbox s) (myPlayerId s) (myPlayer s) (myPlayerAliased s)
    (players s) (avatars s) (avatarImages s) (viewportX s) (viewportY s)
    (needsRedraw s) (redraws s) keys (isMoving s).

(** ** Keyboard events *)

(** [this.isRunning] is kept beside the client state: the key handlers act
    on the pair [(isRunning, client)]. [toggleSpeed] otherwise only changes
    the DOM speed indicator. *)
Definition toggleSpeed (running : bool) : bool := negb running.

(** [Set.prototype.add] appends a new element; [delete] removes it. *)
Definition handleKeyDown (code : string) (st : bool * client) : bool * client :=
  let '(running, s) := st in
  if String.eqb code "ShiftLeft" || String.eqb code "ShiftRight" then
    (toggleSpeed running, s)
  else if has (pressedKeys s) code then (running, s)
  else (running, updateMovement (set_pressedKeys (pressedKeys s ++ [code]) s)).

Definition handleKeyUp (code : string) (st : bool * client) : bool * client :=
  let '(running, s) := st in
  (running, updateMovement
              (set_pressedKeys (filter (fun k => k <> code) (pressedKeys s)) s)).

(** ** Canvas resize and socket callbacks *)

Definition set_cfg (c : config) (s : client) : client :=
  mkClient c (connected s) (outbox s) (myPlayerId s) (myPlayer s) (myPlayerAliased s)
    (players s) (avatars s) (avatarImages s) (viewportX s) (viewportY s)
    (needsRedraw s) (redraws s) (pressedKeys s) (isMoving s).

Definition set_connected (b : bool) (s : client) : client :=
  mkClient (cfg s) b (outbox s) (myPlayerId s) (myPlayer s) (myPlayerAliased s)
    (players s) (avatars s) (avatarImages s) (viewportX s) (viewportY s)
    (needsRedraw s) (redraws s) (pressedKeys s) (isMoving s).

(** [resizeCanvas] with [window.innerWidth] and [window.innerHeight]; the
    minimap canvas is fixed at 200x200 and is not part of the state. *)
Definition resizeCanvas (innerWidth innerHeight : Q) (s : client) : client :=
  let c := cfg s in
  let s1 := set_cfg (mkConfig innerWidth innerHeight (worldWidth c) (worldHeight c)
                       (avatarSize c)) s in
  let s2 := match myPlayer s1 with Some _ => updateViewport s1 | None => s1 end in
  set_needsRedraw true s2.

(** [ws.onopen]: the loading bar aside, mark connected and join. *)
Definition onOpen (s : client) : client := joinGame (set_connected true s).

(** [ws.onclose]: mark disconnected (the 3 s reconnect timer is external). *)
Definition onClose (s : client) : client := set_connected false s.

(** ** Drawing players, the world map and the minimap *)

(** [a < b] on numbers. *)
Definition qlt (a b : Q) : bool := negb (Qle_bool b a).

Inductive drawop :=
  | Glow (x y radius : Q)
  | Sprite (d : drawcall)
  | Label (text : string) (x y : Q).

(** [player.id === this.myPlayerId]. *)
Definition is_me (s : client) (pl : player) : bool :=
  match myPlayerId s with Some i => String.eqb (p_id pl) i | None => false end.

(** The canvas calls [drawPlayer] issues: [drawPlayerGlow], [drawAvatar]
    and [drawPlayerLabel], after the visibility test. *)
Definition drawPlayer (s : client) (pl : player) : list drawop :=
  let screenPos := worldToScreen s (p_x pl) (p_y pl) in
  let sx := fst screenPos in
  let sy := snd screenPos in
  let size := avatarSize (cfg s) in
  if qlt sx (- size) || qlt (canvas_width (cfg s) + size) sx ||
     qlt sy (- size) || qlt (canvas_height (cfg s) + size) sy then []
  else
    (if is_me s pl then [Glow sx sy (size / 2 + 5)] else []) ++
    (match drawAvatar s pl sx sy with Some d => [Sprite d] | None => [] end) ++
    [Label (username pl) sx (sy - size / 2 - 5)].

(** [drawWorldMap]: the source rectangle of the world image blitted to the
    whole canvas, or nothing while [this.worldImage] is null. *)
Definition drawWorldMap (worldImage : option image) (s : client) : option (Q * Q * Q * Q) :=
  match worldImage with
  | None => None
  | Some _ => Some (viewportX s, viewportY s, canvas_width (cfg s), canvas_height (cfg s))
  end.




(** ** Sample states *)

(** An 800x600 canvas over the 2048x2048 world, with [avatarSize = 32]. *)
Definition cfg0 : config := mkConfig 800 600 2048 2048 32.

(** The state after the constructor: connected, nothing joined yet. *)
Definition client0 : client :=
  mkClient cfg0 true [] None None false ∅ ∅ ∅ 0 0 true 0 [] false.

Definition fox : avatar_data :=
  mkAvatar "fox" [("south", ["fox_s0.png"]); ("east", ["fox_e0.png"])].

Definition p1_at (x y : Q) : player :=
  mkPlayer "p1" "Tim" x y "south" "fox" None.

(** A second descriptor announced under the kind "fox". *)
Definition fox2 : avatar_data :=
  mkAvatar "fox" [("south", ["fox_s1.png"])].

Definition fox_east0 : image := mkImage "fox_e0.png" 32 48.

(** The join of "p1" at (100,100), then a bulk move of "p1" to (1100,1100). *)
Definition joined0 : client :=
  handleMessage (JoinGame true "p1" {[ "p1" := p1_at 100 100 ]} {[ "fox" := fox ]}) client0.

Definition moved0 : client :=
  handleMessage (PlayersMoved {[ "p1" := p1_at 1100 1100 ]}) joined0.

(** "p1" joined and only the east frame 0 of "fox" loaded so far. *)
Definition east_only : client :=
  mkClient cfg0 true [] (Some "p1") (Some (p1_at 100 100)) true
    {[ "p1" := p1_at 100 100 ]} {[ "fox" := fox ]}
    {[ imageKey "fox" "east" 0 := fox_east0 ]} 0 0 false 0 [] false.

(** The same state with frame 0 loaded for both east and west, one image. *)
Definition both_loaded : client :=
  mkClient cfg0 true [] (Some "p1") (Some (p1_at 100 100)) true
    {[ "p1" := p1_at 100 100 ]} {[ "fox" := fox ]}
    {[ imageKey "fox" "east" 0 := fox_east0; imageKey "fox" "west" 0 := fox_east0 ]}
    0 0 false 0 [] false.

(** ** Map lemmas for [Object.entries] loops *)

Lemma set_all_list_lookup {V} (l : list (string * V)) (m : gmap string V) (k : string) :
  NoDup l.*1 ->
  fold_left (fun acc '(k', v) => <[k' := v]> acc) l m !! k = (list_to_map l ∪ m) !! k.
Proof.
  revert m. induction l as [|[k0 v0] l IH]; intros m Hnd; simpl.
  - by rewrite map_empty_union.
  - apply NoDup_cons in Hnd as [Hnotin Hnd].
    rewrite IH by done.
    rewrite !lookup_union.
    destruct (decide (k = k0)) as [->|Hne].
    + rewrite lookup_insert_eq.
      rewrite (not_elem_of_list_to_map_1 l k0 Hnotin).
      rewrite lookup_insert_eq. by destruct (m !! k0).
    + rewrite lookup_insert_ne by done.
      by rewrite lookup_insert_ne by done.
Qed.

Lemma set_all_union {V} (m obj : gmap string V) : set_all m obj = obj ∪ m.
Proof.
  apply map_eq. intros k. unfold set_all.
  rewrite set_all_list_lookup by apply NoDup_fst_map_to_list.
  by rewrite list_to_map_to_list.
Qed.

Example test_set_all :
  set_all {[ "a" := 1%nat; "b" := 2%nat ]} {[ "a" := 3%nat ]} !! "a" = Some 3%nat.
Proof. rewrite set_all_union. by rewrite lookup_union, !lookup_singleton_eq. Qed.

(** The source's [Math.max(0, Math.min(v, worldDim - canvasDim))] agrees
    with the spec's clamp. *)
Lemma clamp_axis_spec (pos outputDim worldDim : Q) :
  Qmax 0 (Qmin (pos - outputDim / 2) (worldDim - outputDim)) ==
  computeViewport_axis_spec pos outputDim worldDim.
Proof.
  unfold computeViewport_axis_spec.
  set (v := pos - outputDim / 2).
  pose proof (Q.min_spec v (worldDim - outputDim)) as Hmin.
  pose proof (Q.max_spec 0 (Qmin v (worldDim - outputDim))) as Hmax.
  unfold QHasMinMax.min, QHasMinMax.max in *.
  destruct (Qlt_le_dec worldDim outputDim);
    [|destruct (Qlt_le_dec v 0); [|destruct (Qlt_le_dec (worldDim - outputDim) v)]];
    lra.
Qed.

(** ** Claims *)

(** C5: [handlePlayersMoved] (upsertMany) binds every id named in the
    incoming map to its incoming snapshot, whole, and leaves every other id
    as it was; in particular after [{A: snapA, B: snapB}] then [{A: snapA2}],
    [A] is bound to [snapA2] and [B] to [snapB]. *)
Theorem handlePlayersMoved_upsert :
  (forall (s : client) (ps : gmap string player) (k : string),
     players (handlePlayersMoved ps s) !! k =
     match ps !! k with Some snap => Some snap | None => players s !! k end) /\
  (forall (s : client) (snapA snapB snapA2 : player),
     let s2 := handlePlayersMoved {[ "A" := snapA2 ]}
                 (handlePlayersMoved {[ "A" := snapA; "B" := snapB ]} s) in
     players s2 !! "A" = Some snapA2 /\ players s2 !! "B" = Some snapB).
Proof.
  assert (Hup : forall (s : client) (ps : gmap string player) (k : string),
     players (handlePlayersMoved ps s) !! k =
     match ps !! k with Some snap => Some snap | None => players s !! k end).
  { intros s ps k. unfold handlePlayersMoved. simpl.
    rewrite set_all_union, lookup_union.
    by destruct (ps !! k), (players s !! k). }
  split; [exact Hup|].
  intros s snapA snapB snapA2 s2. subst s2. split.
  - rewrite Hup. by rewrite lookup_singleton_eq.
  - rewrite Hup, lookup_singleton_ne by done.
    rewrite Hup, lookup_insert_ne by done.
    by rewrite lookup_singleton_eq.
Qed.

(** C7: [handlePlayerLeft] (remove) is total and idempotent: handling the
    same departure twice gives the state of handling it once, and the
    departure of an absent id leaves the players map as it was. *)
Theorem handlePlayerLeft_idempotent :
  forall (s : client) (playerId : string),
    handlePlayerLeft playerId (handlePlayerLeft playerId s) = handlePlayerLeft playerId s /\
    (players s !! playerId = None -> players (handlePlayerLeft playerId s) = players s).
Proof.
  intros s playerId. split.
  - unfold handlePlayerLeft, set_needsRedraw, set_players. simpl.
    rewrite delete_delete_eq, <- andb_assoc, andb_diag. reflexivity.
  - intros Habs. simpl. by apply delete_id.
Qed.

(** C8: with the socket not connected, [sendMoveCommand], [sendStopCommand]
    and [joinGame] leave the whole state unchanged (nothing is sent or queued);
    when connected, each appends exactly one message to the socket's output
    and changes nothing else. *)
Theorem sends_dropped_when_disconnected :
  forall (s : client) (direction : string),
    (connected s = false ->
       sendMoveCommand direction s = s /\ sendStopCommand s = s /\ joinGame s = s) /\
    (connected s = true ->
       sendMoveCommand direction s = set_outbox (outbox s ++ [OMove direction]) s /\
       sendStopCommand s = set_outbox (outbox s ++ [OStop]) s /\
       joinGame s = set_outbox (outbox s ++ [OJoin "Tim"]) s).
Proof.
  intros s direction.
  unfold sendMoveCommand, sendStopCommand, joinGame, ws_send.
  split; intros Hc; rewrite Hc; simpl; auto.
Qed.

(** C10: [screenToWorld] undoes [worldToScreen] and conversely, for every
    viewport offset and every point. *)
Theorem worldToScreen_screenToWorld_inverse :
  forall (s : client) (px py : Q),
    fst (screenToWorld s (fst (worldToScreen s px py)) (snd (worldToScreen s px py))) == px /\
    snd (screenToWorld s (fst (worldToScreen s px py)) (snd (worldToScreen s px py))) == py /\
    fst (worldToScreen s (fst (screenToWorld s px py)) (snd (screenToWorld s px py))) == px /\
    snd (worldToScreen s (fst (screenToWorld s px py)) (snd (screenToWorld s px py))) == py.
Proof.
  intros s px py. unfold worldToScreen, screenToWorld. simpl.
  repeat split; ring.
Qed.

(** C2: [updateViewport] centers on the tracked player and clamps each axis
    to [[0, worldDim - canvasDim]] (to 0 when the world is smaller than the
    canvas); on the 2048x2048 world with an 800x600 canvas it gives (0,0),
    (1248,1448) and (624,724) for a player at (0,0), (2048,2048) and
    (1024,1024). *)
Theorem updateViewport_clamped :
  (forall (s : client) (me : player),
     myPlayer s = Some me ->
     viewportX (updateViewport s) ==
       computeViewport_axis_spec (p_x me) (canvas_width (cfg s)) (worldWidth (cfg s)) /\
     viewportY (updateViewport s) ==
       computeViewport_axis_spec (p_y me) (canvas_height (cfg s)) (worldHeight (cfg s))) /\
  (let vp x y := let s := updateViewport (set_me (Some "p1") (Some (p1_at x y)) client0) in
                 (viewportX s, viewportY s) in
   fst (vp 0 0) == 0 /\ snd (vp 0 0) == 0 /\
   fst (vp 2048 2048) == 1248 /\ snd (vp 2048 2048) == 1448 /\
   fst (vp 1024 1024) == 624 /\ snd (vp 1024 1024) == 724).
Proof.
  split.
  - intros s me Hme. unfold updateViewport. rewrite Hme. simpl.
    split; apply clamp_axis_spec.
  - vm_compute. repeat split; reflexivity.
Qed.

(** ** Frame lemmas *)

Lemma outbox_updateViewport (s : client) : outbox (updateViewport s) = outbox s.
Proof. unfold updateViewport. by destruct (myPlayer s). Qed.

Lemma outbox_updatePlayerFacing (d : string) (s : client) :
  outbox (updatePlayerFacing d s) = outbox s.
Proof.
  unfold updatePlayerFacing.
  destruct (myPlayer s); [|done].
  destruct (myPlayerId s); [destruct (myPlayerAliased s)|]; done.
Qed.

Lemma redraws_handleMessage (m : inmsg) (s : client) :
  redraws (handleMessage m s) = redraws s.
Proof.
  destruct m as [[] id ps avs| | | |]; simpl; try done.
  unfold updateViewport. simpl. by destruct (ps !! id).
Qed.

Lemma redraws_handleMessages (ms : list inmsg) (s : client) :
  redraws (handleMessages ms s) = redraws s.
Proof.
  revert s. induction ms as [|m ms IH]; intros s; [done|].
  simpl. rewrite IH. apply redraws_handleMessage.
Qed.

Lemma needsRedraw_handleMessage (m : inmsg) (s : client) :
  is_store_mutation m = true -> needsRedraw (handleMessage m s) = true.
Proof. destruct m as [[] ? ? ?| | | |]; simpl; done. Qed.

Lemma needsRedraw_handleMessages (ms : list inmsg) (s : client) :
  Forall (fun m => is_store_mutation m = true) ms ->
  needsRedraw s = true -> needsRedraw (handleMessages ms s) = true.
Proof.
  revert s. induction ms as [|m ms IH]; intros s Hall Hs; [done|].
  apply Forall_cons in Hall as [Hm Hall].
  simpl. apply IH; [done|]. by apply needsRedraw_handleMessage.
Qed.

(** C3: [updateMovement] sends the first held direction in the order up,
    down, left, right, and [stop] when no arrow key is held: one message per
    reduction when connected, none otherwise. With {up, left} held it sends
    [up], with {left, down} [down], with nothing held [stop]. *)
Theorem updateMovement_priority :
  (forall s : client,
     outbox (updateMovement s) =
     outbox s ++ (if connected s then [reduce_spec (pressedKeys s)] else [])) /\
  outbox (updateMovement (set_pressedKeys ["ArrowUp"; "ArrowLeft"] client0)) = [OMove "up"] /\
  outbox (updateMovement (set_pressedKeys ["ArrowLeft"; "ArrowDown"] client0)) = [OMove "down"] /\
  outbox (updateMovement (set_pressedKeys [] client0)) = [OStop].
Proof.
  split; [|vm_compute; repeat split; reflexivity].
  intros s. unfold updateMovement, getMovementDirections, reduce_spec.
  destruct (has (pressedKeys s) "ArrowUp"), (has (pressedKeys s) "ArrowDown"),
    (has (pressedKeys s) "ArrowLeft"), (has (pressedKeys s) "ArrowRight");
    simpl;
    rewrite ?outbox_updateViewport, ?outbox_updatePlayerFacing;
    unfold sendMoveCommand, sendStopCommand;
    destruct (connected s); simpl; rewrite ?app_nil_r; reflexivity.
Qed.

Lemma renderTick_clears (s : client) : needsRedraw (renderTick s) = false.
Proof. unfold renderTick. by destruct (needsRedraw s) eqn:E. Qed.

(** C4 (counterexample): a bulk move with an empty player map still marks
    the redraw flag, so the next tick redraws. *)
Lemma empty_playersMoved_marks_dirty :
  needsRedraw (renderTick client0) = false /\
  needsRedraw (handleMessage (PlayersMoved ∅) (renderTick client0)) = true /\
  redraws (renderTick (handleMessage (PlayersMoved ∅) (renderTick client0))) =
    S (redraws (renderTick client0)).
Proof. vm_compute. repeat split; reflexivity. Qed.

(** C4 (amended): N >= 1 store mutations handled between two render ticks
    give exactly one redraw: the next tick draws once and clears the flag,
    and the tick after it draws nothing. [handlePlayersMoved] marks the flag
    for every incoming map, the empty one included. *)
Theorem render_batching (s : client) (ms : list inmsg)
    (Hne : ms <> [])
    (Hmut : Forall (fun m => is_store_mutation m = true) ms) :
  (let s1 := renderTick s in
   let s2 := renderTick (handleMessages ms s1) in
   redraws s2 = S (redraws s1) /\ needsRedraw s2 = false /\
   redraws (renderTick s2) = redraws s2) /\
  (forall (t : client) (ps : gmap string player), needsRedraw (handlePlayersMoved ps t) = true).
Proof.
  split; [|done].
  destruct ms as [|m ms]; [done|].
  apply Forall_cons in Hmut as [Hm Hmut].
  assert (Hd : needsRedraw (handleMessages (m :: ms) (renderTick s)) = true).
  { simpl. apply needsRedraw_handleMessages; [done|].
    by apply needsRedraw_handleMessage. }
  cbn zeta.
  set (s' := handleMessages (m :: ms) (renderTick s)) in *.
  assert (Hr : redraws s' = redraws (renderTick s)) by apply redraws_handleMessages.
  assert (Ht : renderTick s' = set_needsRedraw false (set_redraws (S (redraws s')) s')).
  { unfold renderTick. by rewrite Hd. }
  rewrite Ht. simpl. split; [by rewrite Hr|]. split; done.
Qed.

Lemma render_batching_witness :
  let ms := [PlayersMoved ∅; PlayerLeft "p9"] in
  ms <> [] /\ Forall (fun m => is_store_mutation m = true) ms /\
  redraws (renderTick (handleMessages ms (renderTick client0))) =
    S (redraws (renderTick client0)).
Proof.
  cbn zeta. split; [discriminate|]. split; [repeat constructor|].
  destruct (render_batching client0 [PlayersMoved ∅; PlayerLeft "p9"])
    as [Hb _]; [discriminate | repeat constructor |].
  cbn zeta in Hb. exact (proj1 Hb).
Defined.

(** C1 (code bug): after the join, a bulk move of the tracked player to
    (1100,1100) updates its map entry and marks one redraw, but the viewport
    stays at (0,0) where the camera rule gives (700,800): [handlePlayersMoved]
    does not call [updateViewport], and [myPlayer] still holds the joined
    snapshot, so a later [updateViewport] also stays at (0,0). *)
Theorem playersMoved_viewport_not_recomputed :
  players moved0 !! "p1" = Some (p1_at 1100 1100) /\
  needsRedraw moved0 = true /\
  redraws (renderTick moved0) = S (redraws moved0) /\
  viewportX moved0 == 0 /\ viewportY moved0 == 0 /\
  computeViewport_axis_spec 1100 800 2048 == 700 /\
  computeViewport_axis_spec 1100 600 2048 == 800 /\
  myPlayer moved0 = Some (p1_at 100 100) /\
  viewportX (updateViewport moved0) == 0 /\ viewportY (updateViewport moved0) == 0.
Proof. vm_compute. repeat split; reflexivity. Qed.

(** C6 (counterexample): a [player_joined] carrying a descriptor for the
    already known kind "fox" replaces the stored descriptor. *)
Lemma playerJoined_replaces_descriptor :
  avatars (handlePlayerJoined (p1_at 5 5) fox2 (set_avatars {[ "fox" := fox ]} client0))
    !! "fox" = Some fox2 /\ fox2 <> fox.
Proof.
  split.
  - simpl. by rewrite lookup_insert_eq.
  - discriminate.
Qed.

(** C6 (amended): [handlePlayerJoined] stores the accompanying descriptor
    under its kind, whether or not the kind was already known, and leaves
    the descriptors of every other kind unchanged. *)
Theorem playerJoined_descriptor :
  forall (s : client) (p : player) (a : avatar_data),
    avatars (handlePlayerJoined p a s) !! a_name a = Some a /\
    (forall k, k <> a_name a -> avatars (handlePlayerJoined p a s) !! k = avatars s !! k).
Proof.
  intros s p a. simpl. split.
  - by rewrite lookup_insert_eq.
  - intros k Hk. by rewrite lookup_insert_ne by congruence.
Qed.

(** C9 (counterexample): with only the east frame of "fox" loaded, the
    east-facing "p1" is drawn and the west-facing one is not drawn at all:
    the west sprite is looked up under its own key [fox_west_0]. *)
Lemma west_sprite_own_key :
  is_Some (drawAvatar east_only (with_facing "east" (p1_at 100 100)) 100 100) /\
  drawAvatar east_only (with_facing "west" (p1_at 100 100)) 100 100 = None.
Proof. vm_compute. split; [eexists; reflexivity | reflexivity]. Qed.

(** C9 (amended): when the west and east sprites of a player resolve to the
    same image, the west draw call paints that image horizontally flipped
    in the destination rectangle of the east draw call: same image, same y,
    width and height, and the source column at fraction [t] lands at the
    mirror image about the screen x of the column the east call paints. *)
Theorem west_draw_mirrors_east (s : client) (pl : player) (x y : Q) (img : image)
    (Hav : is_Some (avatars s !! avatar pl))
    (Hw : avatarImages s !! imageKey (avatar pl) "west" (default 0%N (animationFrame pl)) = Some img)
    (He : avatarImages s !! imageKey (avatar pl) "east" (default 0%N (animationFrame pl)) = Some img) :
  exists dw de,
    drawAvatar s (with_facing "west" pl) x y = Some dw /\
    drawAvatar s (with_facing "east" pl) x y = Some de /\
    dc_image dw = dc_image de /\ dc_y dw == dc_y de /\
    dc_w dw == dc_w de /\ dc_h dw == dc_h de /\
    (forall t, paint_x dw t == 2 * x - paint_x de t) /\
    paint_x dw 0 == paint_x de 1 /\ paint_x dw 1 == paint_x de 0.
Proof.
  destruct Hav as [av Hav].
  unfold drawAvatar. simpl. rewrite Hav, Hw, He. simpl.
  eexists _, _. split; [reflexivity|]. split; [reflexivity|].
  unfold paint_x. simpl.
  repeat split; try reflexivity; try intros t; field.
Qed.

Lemma west_draw_mirrors_east_witness :
  is_Some (avatars both_loaded !! "fox") /\
  avatarImages both_loaded !! imageKey "fox" "west" 0 = Some fox_east0 /\
  avatarImages both_loaded !! imageKey "fox" "east" 0 = Some fox_east0 /\
  exists dw de,
    drawAvatar both_loaded (with_facing "west" (p1_at 100 100)) 100 100 = Some dw /\
    drawAvatar both_loaded (with_facing "east" (p1_at 100 100)) 100 100 = Some de /\
    (forall t, paint_x dw t == 2 * 100 - paint_x de t).
Proof.
  split; [vm_compute; eexists; reflexivity|].
  split; [vm_compute; reflexivity|].
  split; [vm_compute; reflexivity|].
  destruct (west_draw_mirrors_east both_loaded (p1_at 100 100) 100 100 fox_east0)
    as (dw & de & H1 & H2 & _ & _ & _ & _ & H3 & _);
    [vm_compute; eexists; reflexivity | vm_compute; reflexivity
    | vm_compute; reflexivity |].
  exists dw, de. split; [exact H1|]. split; [exact H2|]. exact H3.
Defined.

(** ** Further properties of the client *)




Lemma outbox_updateMovement (s : client) :
  outbox (updateMovement s) =
  outbox s ++ (if connected s then [reduce_spec (pressedKeys s)] else []).
Proof.
  unfold updateMovement, getMovementDirections, reduce_spec.
  destruct (has (pressedKeys s) "ArrowUp"), (has (pressedKeys s) "ArrowDown"),
    (has (pressedKeys s) "ArrowLeft"), (has (pressedKeys s) "ArrowRight");
    simpl;
    rewrite ?outbox_updateViewport, ?outbox_updatePlayerFacing;
    unfold sendMoveCommand, sendStopCommand;
    destruct (connected s); simpl; rewrite ?app_nil_r; reflexivity.
Qed.


(** X1: a key-down for a key already held (auto-repeat) changes nothing and
    sends nothing. *)
Theorem handleKeyDown_repeat (code : string) (running : bool) (s : client)
    (Hl : String.eqb code "ShiftLeft" = false)
    (Hr : String.eqb code "ShiftRight" = false)
    (Hheld : has (pressedKeys s) code = true) :
  handleKeyDown code (running, s) = (running, s).
Proof. unfold handleKeyDown. by rewrite Hl, Hr, Hheld. Qed.

Lemma handleKeyDown_repeat_witness :
  let s := set_pressedKeys ["ArrowUp"] client0 in
  String.eqb "ArrowUp" "ShiftLeft" = false /\ String.eqb "ArrowUp" "ShiftRight" = false /\
  has (pressedKeys s) "ArrowUp" = true /\
  handleKeyDown "ArrowUp" (false, s) = (false, s).
Proof.
  cbn zeta. split; [reflexivity|]. split; [reflexivity|]. split; [reflexivity|].
  apply handleKeyDown_repeat; reflexivity.
Defined.

(** X2: a key-down for a new key (any key but Shift, arrow or not) and every
    key-up (Shift included) re-run the reducer on the updated key set and,
    when connected, send exactly one message; so releasing the last held
    arrow key sends [stop]. *)
Theorem key_events_send_reduction (code : string) (running : bool) (s : client) :
  (String.eqb code "ShiftLeft" = false -> String.eqb code "ShiftRight" = false ->
   has (pressedKeys s) code = false ->
   outbox (snd (handleKeyDown code (running, s))) =
   outbox s ++ (if connected s then [reduce_spec (pressedKeys s ++ [code])] else [])) /\
  outbox (snd (handleKeyUp code (running, s))) =
  outbox s ++ (if connected s
               then [reduce_spec (filter (fun k => k <> code) (pressedKeys s))] else []) /\
  (pressedKeys s = [code] -> connected s = true ->
   outbox (snd (handleKeyUp code (running, s))) = outbox s ++ [OStop]).
Proof.
  split; [|split].
  - intros Hl Hr Hnew. unfold handleKeyDown. rewrite Hl, Hr, Hnew. simpl.
    by rewrite outbox_updateMovement.
  - simpl. by rewrite outbox_updateMovement.
  - intros Hk Hc. simpl. rewrite outbox_updateMovement. simpl.
    rewrite Hc, Hk. rewrite filter_cons_False by (intros H; by apply H).
    reflexivity.
Qed.




(** [Math.max(0, Math.min(v, hi))] stays in [[0, max 0 hi]], and is [v]
    when [v] already lies in [[0, hi]]. *)
Lemma clamp_bounds (v hi : Q) : 0 <= Qmax 0 (Qmin v hi) /\ Qmax 0 (Qmin v hi) <= Qmax 0 hi.
Proof.
  pose proof (Q.min_spec v hi). pose proof (Q.max_spec 0 (Qmin v hi)).
  pose proof (Q.max_spec 0 hi).
  unfold QHasMinMax.min, QHasMinMax.max in *. lra.
Qed.

Lemma clamp_inside (v hi : Q) : 0 <= v -> v <= hi -> Qmax 0 (Qmin v hi) == v.
Proof.
  intros H0 H1.
  pose proof (Q.min_spec v hi). pose proof (Q.max_spec 0 (Qmin v hi)).
  unfold QHasMinMax.min, QHasMinMax.max in *. lra.
Qed.

(** X5: once computed from a player, each viewport coordinate lies in
    [[0, max 0 (worldDim - canvasDim)]]; when the world is at least as large
    as the canvas, the background blit of [drawWorldMap] reads only inside
    the world image. *)
Theorem updateViewport_within_world (s : client) (me : player) (img : image)
    (Hme : myPlayer s = Some me) :
  let s' := updateViewport s in
  let c := cfg s in
  0 <= viewportX s' <= Qmax 0 (worldWidth c - canvas_width c) /\
  0 <= viewportY s' <= Qmax 0 (worldHeight c - canvas_height c) /\
  (canvas_width c <= worldWidth c -> canvas_height c <= worldHeight c ->
   exists sx sy sw sh,
     drawWorldMap (Some img) s' = Some (sx, sy, sw, sh) /\
     0 <= sx /\ sx + sw <= worldWidth c /\ 0 <= sy /\ sy + sh <= worldHeight c).
Proof.
  unfold updateViewport. rewrite Hme. cbn zeta. simpl.
  set (vx := Qmax 0 (Qmin (p_x me - canvas_width (cfg s) / 2)
                          (worldWidth (cfg s) - canvas_width (cfg s)))).
  set (vy := Qmax 0 (Qmin (p_y me - canvas_height (cfg s) / 2)
                          (worldHeight (cfg s) - canvas_height (cfg s)))).
  pose proof (clamp_bounds (p_x me - canvas_width (cfg s) / 2)
                (worldWidth (cfg s) - canvas_width (cfg s))) as Hx.
  pose proof (clamp_bounds (p_y me - canvas_height (cfg s) / 2)
                (worldHeight (cfg s) - canvas_height (cfg s))) as Hy.
  fold vx in Hx. fold vy in Hy.
  split; [exact Hx|]. split; [exact Hy|].
  intros Hw Hh. exists vx, vy, (canvas_width (cfg s)), (canvas_height (cfg s)).
  split; [reflexivity|].
  pose proof (Q.max_spec 0 (worldWidth (cfg s) - canvas_width (cfg s))).
  pose proof (Q.max_spec 0 (worldHeight (cfg s) - canvas_height (cfg s))).
  unfold QHasMinMax.max in *. lra.
Qed.

Lemma updateViewport_within_world_witness :
  let s := set_me (Some "p1") (Some (p1_at 2048 0)) client0 in
  myPlayer s = Some (p1_at 2048 0) /\
  viewportX (updateViewport s) <= Qmax 0 (2048 - 800).
Proof.
  cbn zeta. split; [reflexivity|].
  apply (updateViewport_within_world (set_me (Some "p1") (Some (p1_at 2048 0)) client0)
           (p1_at 2048 0) fox_east0 eq_refl).
Defined.

(** X6: when the tracked player is at least half a canvas away from every
    world edge, the viewport computed from it puts the player at the canvas
    center. *)
Theorem updateViewport_centers (s : client) (me : player)
    (Hme : myPlayer s = Some me)
    (Hx : canvas_width (cfg s) / 2 <= p_x me <= worldWidth (cfg s) - canvas_width (cfg s) / 2)
    (Hy : canvas_height (cfg s) / 2 <= p_y me <= worldHeight (cfg s) - canvas_height (cfg s) / 2) :
  fst (worldToScreen (updateViewport s) (p_x me) (p_y me)) == canvas_width (cfg s) / 2 /\
  snd (worldToScreen (updateViewport s) (p_x me) (p_y me)) == canvas_height (cfg s) / 2.
Proof.
  unfold updateViewport, worldToScreen. rewrite Hme.
  cbn [fst snd viewportX viewportY set_viewport].
  pose proof (clamp_inside (p_x me - canvas_width (cfg s) / 2)
                (worldWidth (cfg s) - canvas_width (cfg s))) as Ex.
  pose proof (clamp_inside (p_y me - canvas_height (cfg s) / 2)
                (worldHeight (cfg s) - canvas_height (cfg s))) as Ey.
  destruct Hx as [Hx1 Hx2]. destruct Hy as [Hy1 Hy2].
  assert (Hw2 : canvas_width (cfg s) / 2 + canvas_width (cfg s) / 2 == canvas_width (cfg s))
    by field.
  assert (Hh2 : canvas_height (cfg s) / 2 + canvas_height (cfg s) / 2 == canvas_height (cfg s))
    by field.
  specialize (Ex ltac:(lra) ltac:(lra)). specialize (Ey ltac:(lra) ltac:(lra)).
  split; lra.
Qed.

Lemma updateViewport_centers_witness :
  let s := set_me (Some "p1") (Some (p1_at 1024 1024)) client0 in
  fst (worldToScreen (updateViewport s) (p_x (p1_at 1024 1024)) (p_y (p1_at 1024 1024))) ==
  canvas_width (cfg s) / 2.
Proof.
  cbn zeta.
  destruct (updateViewport_centers (set_me (Some "p1") (Some (p1_at 1024 1024)) client0)
              (p1_at 1024 1024) eq_refl) as [H _];
    [vm_compute; split; discriminate | vm_compute; split; discriminate |].
  exact H.
Defined.

(** X7: a resize sets the canvas to the window size, keeps the world size,
    marks a redraw, and recomputes the viewport for the new canvas when a
    player is tracked; with no player the viewport stays where it was. *)
Theorem resizeCanvas_recomputes (w h : Q) (s : client) :
  let r := resizeCanvas w h s in
  canvas_width (cfg r) = w /\ canvas_height (cfg r) = h /\
  worldWidth (cfg r) = worldWidth (cfg s) /\ worldHeight (cfg r) = worldHeight (cfg s) /\
  needsRedraw r = true /\
  match myPlayer s with
  | Some me =>
      viewportX r = Qmax 0 (Qmin (p_x me - w / 2) (worldWidth (cfg s) - w)) /\
      viewportY r = Qmax 0 (Qmin (p_y me - h / 2) (worldHeight (cfg s) - h))
  | None => viewportX r = viewportX s /\ viewportY r = viewportY s
  end.
Proof.
  unfold resizeCanvas. simpl.
  destruct (myPlayer s) as [me|] eqn:Hme; simpl.
  - unfold updateViewport. simpl. rewrite Hme. simpl. repeat split.
  - repeat split.
Qed.

(** X8: a successful join replaces the players and descriptors by exactly
    those of the message (earlier entries are dropped), records the player
    id and marks a redraw; if the id is missing from the players it sent,
    there is no tracked player and the viewport is left as it was. A failed
    join changes nothing. *)
Theorem handleJoinGame_replaces (playerId : string) (ps : gmap string player)
    (avs : gmap string avatar_data) (s : client) :
  let s' := handleJoinGame true playerId ps avs s in
  players s' = ps /\ avatars s' = avs /\ myPlayerId s' = Some playerId /\
  myPlayer s' = ps !! playerId /\ needsRedraw s' = true /\
  (ps !! playerId = None -> viewportX s' = viewportX s /\ viewportY s' = viewportY s) /\
  handleJoinGame false playerId ps avs s = s.
Proof.
  cbn zeta. unfold handleJoinGame, updateViewport. simpl.
  rewrite !set_all_union, !map_union_empty.
  destruct (ps !! playerId) eqn:E; simpl; repeat split; done.
Qed.

(** X9: two bulk moves in a row leave the players map as one bulk move of
    the two maps merged, the later one winning on shared ids. *)
Theorem handlePlayersMoved_compose (ps1 ps2 : gmap string player) (s : client) :
  players (handlePlayersMoved ps2 (handlePlayersMoved ps1 s)) =
  players (handlePlayersMoved (ps2 ∪ ps1) s).
Proof.
  unfold handlePlayersMoved. simpl.
  rewrite !set_all_union. by rewrite map_union_assoc.
Qed.

(** X10: a player that joins and then leaves, with no entry of its id
    before, leaves the players map as it found it. *)
Theorem join_then_leave (p : player) (a : avatar_data) (s : client)
    (Hnew : players s !! p_id p = None) :
  players (handlePlayerLeft (p_id p) (handlePlayerJoined p a s)) = players s.
Proof. simpl. by rewrite delete_insert_id. Qed.

Lemma join_then_leave_witness :
  players client0 !! "p1" = None /\
  players (handlePlayerLeft (p_id (p1_at 5 5)) (handlePlayerJoined (p1_at 5 5) fox client0)) =
  players client0.
Proof. split; [reflexivity|]. apply join_then_leave. reflexivity. Defined.

(** X11: a departure never changes [myPlayer] or the viewport, also for
    our own id: the camera freezes, and a later recompute still centers on
    the departed player's last snapshot. *)
Theorem departure_keeps_camera (playerId : string) (s : client) :
  myPlayer (handlePlayerLeft playerId s) = myPlayer s /\
  viewportX (handlePlayerLeft playerId s) = viewportX s /\
  viewportY (handlePlayerLeft playerId s) = viewportY s /\
  viewportX (updateViewport (handlePlayerLeft playerId s)) = viewportX (updateViewport s) /\
  viewportY (updateViewport (handlePlayerLeft playerId s)) = viewportY (updateViewport s).
Proof.
  unfold updateViewport. simpl. by destruct (myPlayer s).
Qed.

(** X12: with a direction held, [updateMovement] turns our player toward it
    at once (up, down, left, right to north, south, west, east), marks it
    moving and marks a redraw; the players map
    sees the new facing only while its entry is still the object joined
    with, not after a bulk move replaced it. *)
Theorem updateMovement_predicts_facing (s : client) (me : player) (d : string)
    (ds : list string)
    (Hme : myPlayer s = Some me)
    (Hd : getMovementDirections (pressedKeys s) = d :: ds) :
  let s' := updateMovement s in
  let me' := with_facing (default "undefined" (directionMap d)) me in
  myPlayer s' = Some me' /\ isMoving s' = true /\ needsRedraw s' = true /\
  (forall id, myPlayerId s = Some id ->
     players s' !! id = if myPlayerAliased s then Some me' else players s !! id).
Proof.
  cbn zeta. unfold updateMovement. rewrite Hd.
  unfold updatePlayerFacing, sendMoveCommand.
  destruct (connected s); simpl; rewrite Hme; simpl;
    destruct (myPlayerId s) as [i|] eqn:Hid; simpl;
    try destruct (myPlayerAliased s) eqn:Ha; simpl;
    unfold updateViewport; simpl;
    (split; [reflexivity|]); (split; [reflexivity|]); (split; [reflexivity|]);
    intros id Hi; inversion Hi; subst; try done;
    by rewrite lookup_insert_eq.
Qed.

Lemma updateMovement_predicts_facing_witness :
  myPlayer (set_pressedKeys ["ArrowLeft"] joined0) = Some (p1_at 100 100) /\
  getMovementDirections (pressedKeys (set_pressedKeys ["ArrowLeft"] joined0)) = ["left"] /\
  myPlayer (updateMovement (set_pressedKeys ["ArrowLeft"] joined0)) =
    Some (with_facing "west" (p1_at 100 100)).
Proof.
  split; [vm_compute; reflexivity|]. split; [vm_compute; reflexivity|].
  destruct (updateMovement_predicts_facing (set_pressedKeys ["ArrowLeft"] joined0)
              (p1_at 100 100) "left" []) as [H _];
    [vm_compute; reflexivity | vm_compute; reflexivity |].
  exact H.
Defined.

(** X13: a render tick with nothing changed since the previous one draws
    nothing. *)
Theorem renderTick_idle (s : client) :
  renderTick (renderTick s) = renderTick s.
Proof. unfold renderTick. destruct (needsRedraw s) eqn:E; simpl; [done|by rewrite E]. Qed.

(** X14: opening the socket sends exactly one join message; after it
    closes, key handling sends nothing until it opens again. *)
Theorem socket_open_close (s : client) (code : string) (running : bool) :
  outbox (onOpen s) = outbox s ++ [OJoin "Tim"] /\ connected (onOpen s) = true /\
  outbox (snd (handleKeyDown code (running, onClose s))) = outbox s /\
  outbox (snd (handleKeyUp code (running, onClose s))) = outbox s.
Proof.
  split; [reflexivity|]. split; [reflexivity|]. split.
  - unfold handleKeyDown.
    destruct (String.eqb code "ShiftLeft" || String.eqb code "ShiftRight"); [done|].
    destruct (has (pressedKeys (onClose s)) code); [done|].
    simpl. rewrite outbox_updateMovement. simpl. apply app_nil_r.
  - simpl. rewrite outbox_updateMovement. simpl. apply app_nil_r.
Qed.

(** X15: a drawn sprite is [avatarSize] wide, keeps the image's aspect
    ratio ([avatarSize * height / width] high) and is centered on the
    screen position it is given, flipped (west) or not. *)
Theorem drawAvatar_geometry (s : client) (pl : player) (x y : Q) (img : image)
    (Hav : is_Some (avatars s !! avatar pl))
    (Himg : avatarImages s !! imageKey (avatar pl) (facing pl)
              (default 0%N (animationFrame pl)) = Some img)
    (Hw : ~ img_width img == 0) (Hh : ~ img_height img == 0) :
  exists d,
    drawAvatar s pl x y = Some d /\ dc_image d = img /\
    dc_w d == avatarSize (cfg s) /\
    dc_h d == avatarSize (cfg s) * img_height img / img_width img /\
    (paint_x d 0 + paint_x d 1) / 2 == x /\
    dc_y d + dc_h d / 2 == y.
Proof.
  destruct Hav as [av Hav].
  unfold drawAvatar. rewrite Hav, Himg.
  destruct (String.eqb (facing pl) "west"); eexists; (split; [reflexivity|]);
    unfold paint_x; simpl; (split; [reflexivity|]);
    repeat split; try reflexivity; field; auto.
Qed.

Lemma drawAvatar_geometry_witness :
  is_Some (avatars both_loaded !! "fox") /\
  avatarImages both_loaded !! imageKey "fox" "east" 0 = Some fox_east0 /\
  exists d, drawAvatar both_loaded (with_facing "east" (p1_at 100 100)) 100 100 = Some d /\
            dc_y d + dc_h d / 2 == 100.
Proof.
  split; [vm_compute; eexists; reflexivity|].
  split; [vm_compute; reflexivity|].
  destruct (drawAvatar_geometry both_loaded (with_facing "east" (p1_at 100 100)) 100 100
              fox_east0) as (d & H1 & _ & _ & _ & _ & H2);
    [vm_compute; eexists; reflexivity | vm_compute; reflexivity
    | vm_compute; discriminate | vm_compute; discriminate |].
  exists d. split; [exact H1 | exact H2].
Defined.

(** X16: no sprite is drawn for a player whose avatar descriptor is unknown
    or whose frame image is not loaded; a player without [animationFrame]
    is drawn with frame 0. *)
Theorem drawAvatar_missing (s : client) (pl : player) (x y : Q) :
  (avatars s !! avatar pl = None -> drawAvatar s pl x y = None) /\
  (avatarImages s !! imageKey (avatar pl) (facing pl) (default 0%N (animationFrame pl)) = None ->
   drawAvatar s pl x y = None) /\
  (animationFrame pl = None ->
   drawAvatar s pl x y =
   drawAvatar s (mkPlayer (p_id pl) (username pl) (p_x pl) (p_y pl) (facing pl) (avatar pl)
                   (Some 0%N)) x y).
Proof.
  unfold drawAvatar. split; [|split].
  - intros H. by rewrite H.
  - intros H. simpl. rewrite H. by destruct (avatars s !! avatar pl).
  - intros H. simpl. by rewrite H.
Qed.

Lemma qlt_true (a b : Q) : qlt a b = true <-> a < b.
Proof.
  unfold qlt. rewrite negb_true_iff. split.
  - intros H. apply Qnot_le_lt. intros Hle. apply Qle_bool_iff in Hle. congruence.
  - intros H. destruct (Qle_bool b a) eqn:E; [|done].
    apply Qle_bool_iff in E. exfalso. apply (Qlt_not_le a b H E).
Qed.

Lemma qlt_false (a b : Q) : b <= a -> qlt a b = false.
Proof.
  intros H. destruct (qlt a b) eqn:E; [|done].
  apply qlt_true in E. exfalso. apply (Qlt_not_le a b E H).
Qed.

(** X17: a player whose screen position is more than [avatarSize] beyond
    an edge of the canvas gets no draw call at all. A player within that
    margin always gets its name label last, centered at its screen x,
    [avatarSize/2 + 5] above its screen y, even when its sprite is not
    available (then no sprite call is made); the glow of radius
    [avatarSize/2 + 5] is drawn exactly for our own player. *)
Theorem drawPlayer_cull_and_layers (s : client) (pl : player) :
  let sx := fst (worldToScreen s (p_x pl) (p_y pl)) in
  let sy := snd (worldToScreen s (p_x pl) (p_y pl)) in
  let size := avatarSize (cfg s) in
  ((sx < - size \/ canvas_width (cfg s) + size < sx \/
    sy < - size \/ canvas_height (cfg s) + size < sy) -> drawPlayer s pl = []) /\
  (- size <= sx <= canvas_width (cfg s) + size ->
   - size <= sy <= canvas_height (cfg s) + size ->
   (exists pre, drawPlayer s pl = pre ++ [Label (username pl) sx (sy - size / 2 - 5)]) /\
   (Glow sx sy (size / 2 + 5) ∈ drawPlayer s pl <-> is_me s pl = true) /\
   (drawAvatar s pl sx sy = None -> forall d, Sprite d ∉ drawPlayer s pl)).
Proof.
  cbn zeta. unfold drawPlayer. split.
  - intros Hout.
    destruct Hout as [H|[H|[H|H]]]; apply qlt_true in H; rewrite H;
      rewrite ?orb_true_r; reflexivity.
  - intros [Hx1 Hx2] [Hy1 Hy2].
    rewrite (qlt_false _ _ Hx1), (qlt_false _ _ Hx2), (qlt_false _ _ Hy1), (qlt_false _ _ Hy2).
    simpl. split; [|split].
    + eexists. rewrite app_assoc. reflexivity.
    + destruct (is_me s pl); split; intros H; try done.
      * apply list_elem_of_here.
      * rewrite app_nil_l in H. apply elem_of_app in H as [H|H].
        -- destruct (drawAvatar s pl _ _); [apply list_elem_of_singleton in H|]; 
             [discriminate|by apply not_elem_of_nil in H].
        -- apply list_elem_of_singleton in H. discriminate.
    + intros Hnone d Hd. rewrite Hnone in Hd.
      apply elem_of_app in Hd as [Hd|Hd].
      * destruct (is_me s pl); [apply list_elem_of_singleton in Hd; discriminate|].
        by apply not_elem_of_nil in Hd.
      * simpl in Hd. apply list_elem_of_singleton in Hd. discriminate.
Qed.

